(** * Tumor progression simulator: the ODE model and the scenario runner

    Shallow embedding of [src/app.py].  ([src/appy.py] holds the same
    script with Spanish labels as a string and writes it to a file; the
    computation in it is the one modelled here.)

    Numbers.  The script computes with NumPy [float64] values.  Finite
    values are modelled as exact rationals ([Q], compared with [==]), so
    an identity below is an identity of the arithmetic the script writes
    down, which the [float64] computation follows up to rounding.  Where
    a statement concludes an exact zero, an order or a special value, it
    is made under hypotheses (zero factors, components of one sign) under
    which the [float64] computation gives the same.  The one place where
    the script can leave the finite values -- the division of line 117 --
    is modelled with the IEEE results NumPy returns there ([Np.float]).

    Arrays.  A one-dimensional [ndarray] is a [list Q], a two-dimensional
    one is the list of its rows.  Operations that NumPy refuses for
    incompatible shapes raise [ValueError] here as well.  *)

From Stdlib Require Import QArith Qfield Lqa ZArith List Sorting.Sorted.
From stdpp Require Import gmap strings list fin_maps.

Local Open Scope Q_scope.

(** ** Python exceptions as an error monad *)

Inductive exn : Type :=
| ValueError
| KeyError (key : string).

Definition py (A : Type) : Type := (exn + A)%type.

Definition raise {A : Type} (e : exn) : py A := inl e.
Definition ret {A : Type} (a : A) : py A := inr a.
Definition bind {A B : Type} (m : py A) (k : A -> py B) : py B :=
  match m with
  | inl e => inl e
  | inr a => k a
  end.

Notation "'let!' x ':=' m 'in' k" := (bind m (fun x => k))
  (at level 10, x name, m at level 100, k at level 200).

Fixpoint mapM {A B : Type} (f : A -> py B) (l : list A) : py (list B) :=
  match l with
  | [] => ret []
  | a :: l' =>
      let! b := f a in
      let! bs := mapM f l' in
      ret (b :: bs)
  end.

(** ** The NumPy operations the script uses *)

Module Np.

(** [a (op) b] on one-dimensional arrays: equal lengths, or one side of
    length one stretched over the other; anything else is NumPy's
    "operands could not be broadcast together" [ValueError]. *)
Definition broadcast {B : Type} (f : Q -> Q -> B) (a b : list Q) : py (list B) :=
  if (length a =? length b)%nat then ret (zip_with f a b)
  else match a, b with
       | [u], _ => ret (map (f u) b)
       | _, [v] => ret (map (fun u => f u v) a)
       | _, _ => raise ValueError
       end.

Definition multiply := broadcast Qmult.
Definition add := broadcast Qplus.
Definition subtract := broadcast Qminus.

(** [np.sum(a)] of a one-dimensional array. *)
Definition sum (a : list Q) : Q := fold_left Qplus a 0.

(** [np.sum(m, axis=1)]: one sum per row. *)
Definition sum_axis1 (m : list (list Q)) : list Q := map sum m.

(** [np.sum(m, axis=0)]: one sum per column; the rows are added up
    from the first one on. *)
Definition sum_axis0 (m : list (list Q)) : list Q :=
  match m with
  | [] => []
  | row :: rows => fold_left (zip_with Qplus) rows row
  end.

(** [m @ x] for a two-dimensional [m] and a one-dimensional [x]: every
    row must be as long as [x]. *)
Definition dot (row x : list Q) : py Q :=
  if (length row =? length x)%nat then ret (sum (zip_with Qmult row x))
  else raise ValueError.

Definition matmul (m : list (list Q)) (x : list Q) : py (list Q) :=
  mapM (fun row => dot row x) m.

(** [np.linspace(start, stop, num)] with the default [endpoint=True]:
    [arange(num)] scaled by the step and shifted by [start], the last
    sample then overwritten with [stop]. *)
Definition linspace (start stop : Q) (num : nat) : list Q :=
  let div := (num - 1)%nat in
  let delta := stop - start in
  let y := (fun i : nat => inject_Z (Z.of_nat i)) <$> seq 0 num in
  let y :=
    if (0 <? div)%nat then
      let step := delta / inject_Z (Z.of_nat div) in
      if Qeq_bool step 0
      then (fun i => i / inject_Z (Z.of_nat div) * delta) <$> y
      else (fun i => i * step) <$> y
    else (fun i => i * delta) <$> y in
  let y := (fun v => v + start) <$> y in
  if (1 <? num)%nat then <[div := stop]> y else y.

(** A [float64] value as a division returns it: a finite number, or one
    of the IEEE values that are not numbers of [Q]. *)
Inductive float : Type :=
| Finite (q : Q)
| PosInf
| NegInf
| NaN.

(** [a / b] on [float64] scalars under NumPy's default error state: a
    zero divisor gives a warning and [nan] (for [0/0]) or an infinity
    with the sign of the numerator, never an exception.  A sum that
    cancels exactly is [+0.0], so the sign is the numerator's. *)
Definition zero_division (a : Q) : float :=
  match a ?= 0 with
  | Eq => NaN
  | Gt => PosInf
  | Lt => NegInf
  end.

Definition true_divide (a b : Q) : float :=
  if Qeq_bool b 0 then zero_division a else Finite (a / b).

(** [m / v] for a two-dimensional [m] and a one-dimensional [v]: [v] is
    broadcast along the rows of [m]. *)
Definition divide2 (m : list (list Q)) (v : list Q) : py (list (list float)) :=
  mapM (fun row => broadcast true_divide row v) m.

(** [m * c] for a two-dimensional [m] and a Python float [c]. *)
Definition scale2 (m : list (list Q)) (c : Q) : list (list Q) :=
  map (map (fun a => a * c)) m.

End Np.

Infix "*." := Np.multiply (at level 40, left associativity).
Infix "+." := Np.add (at level 50, left associativity).
Infix "-." := Np.subtract (at level 50, left associativity).
Infix "@" := Np.matmul (at level 40, left associativity).

(** ** The model: [tumor_dynamics] (app.py, lines 80-87) *)

Definition r : list Q := [0.03; 0.02; 0.015].
Definition K : Q := 1.0.

(** Line 86, the state-transition term
    [transition_matrix @ x - np.sum(transition_matrix, axis=1) * x]. *)
Definition transition (transition_matrix : list (list Q)) (x : list Q) : py (list Q) :=
  let! inflow := transition_matrix @ x in
  let! outflow := Np.sum_axis1 transition_matrix *. x in
  inflow -. outflow.

Definition tumor_dynamics (t : Q) (x : list Q) (epsilon : Q)
    (mu_profile : list Q) (transition_matrix : list (list Q)) : py (list Q) :=
  let total_tumor := Np.sum x in
  let! treatment_effect := map (Qmult (- epsilon)) mu_profile *. x in
  let! rx := r *. x in
  let growth := map (fun g => g * (1 - total_tumor / K)) rx in
  let! transition := transition transition_matrix x in
  let! gt := growth +. treatment_effect in
  gt +. transition.

(** ** The scenario table and the script's constants (lines 39-78) *)

Module Config.
Record t : Type := mk { mu : list Q; epsilon : Q; transition : Q }.
End Config.

Definition scenarios : list (string * Config.t) :=
  [ ("Scenario 1: Sensitive + High therapy"%string,
     Config.mk [0.9; 0.5; 0.1] 0.8 1.0);
    ("Scenario 2: Partially resistant + Medium therapy"%string,
     Config.mk [0.7; 0.4; 0.2] 0.5 1.0);
    ("Scenario 3: High resistance + Low therapy"%string,
     Config.mk [0.4; 0.3; 0.1] 0.3 1.0);
    ("Scenario 4: Adaptive mix + High plasticity"%string,
     Config.mk [0.8; 0.5; 0.25] 0.6 2.0);
    ("Scenario 5: Experimental control"%string,
     Config.mk [0.6; 0.6; 0.6] 0.0 0.0);
    ("Scenario 6: Heterogeneous tumor + Sequential therapy"%string,
     Config.mk [0.85; 0.6; 0.3] 0.9 0.8);
    ("Scenario 7: Slow adaptive tumor + Reduced plasticity"%string,
     Config.mk [0.75; 0.45; 0.2] 0.4 0.5) ].

(** [d[key]] on a dict literal: the value of the entry with that key,
    [KeyError] when there is none. *)
Fixpoint getitem {V : Type} (d : list (string * V)) (key : string) : py V :=
  match d with
  | [] => raise (KeyError key)
  | (k, v) :: d' => if String.eqb k key then ret v else getitem d' key
  end.

Definition keys {V : Type} (d : list (string * V)) : list string := map fst d.

Definition t_max : Q := 300.
Definition t_span : Q * Q := (0, t_max).
Definition t_eval : list Q := Np.linspace (fst t_span) (snd t_span) 300.
Definition x0 : list Q := [0.03; 0.015; 0.005].

Definition base_transition : list (list Q) :=
  [ [0.0;    0.001; 0.0005];
    [0.001;  0.0;   0.001 ];
    [0.0002; 0.001; 0.0   ] ].

(** ** The runner: the loop of lines 89-99 *)

(** What [solve_ivp] returns (SciPy's [OdeResult]): the time points [t],
    the states [y] with one row per component and one column per time
    point, and the outcome, [status = -1] and [success = False] when a
    step failed. *)
Module Ode.
Record result : Type :=
  mk { t : list Q; y : list (list Q); status : Z; success : bool }.
End Ode.

Definition rhs : Type := Q -> list Q -> py (list Q).

(** [solve_ivp(fun, t_span, y0, t_eval=...)].  The integrator is SciPy's,
    not this repository's: the runner is defined for any integrator.  It
    always returns an [OdeResult]: a step that fails is reported in the
    result, and the derivative functions of the table do not raise on
    three-component states ([model_total] below). *)
Definition solver : Type := rhs -> Q * Q -> list Q -> list Q -> Ode.result.

(** The script's [results] dict, and the keys for which [solve_ivp] has
    been called so far, in call order (bookkeeping of the model, the
    script has no such variable). *)
Record state : Type := mkState {
  results : gmap string Ode.result;
  calls : list string
}.

(** The derivative function handed to the integrator for a table entry
    (lines 92-96). *)
Definition model (config : Config.t) : rhs :=
  let transition_matrix := Np.scale2 base_transition (Config.transition config) in
  let mu_profile := Config.mu config in
  let epsilon := Config.epsilon config in
  fun t x => tumor_dynamics t x epsilon mu_profile transition_matrix.

Section Runner.

Variable solve_ivp : solver.

Definition integrate (config : Config.t) : Ode.result :=
  solve_ivp (model config) t_span x0 t_eval.

(** The entry the loop stores under a key of the table. *)
Definition answer (key : string) : option Ode.result :=
  match getitem scenarios key with
  | inl _ => None
  | inr config => Some (integrate config)
  end.

(** One turn of the loop.  An exception leaves the state as it was
    when it was raised. *)
Definition body (key : string) (st : state) : py unit * state :=
  match getitem scenarios key with
  | inl e => (inl e, st)
  | inr config =>
      let sol := integrate config in
      (inr tt, mkState (<[key := sol]> (results st)) (calls st ++ [key]))
  end.

Fixpoint for_each (selected : list string) (st : state) : py unit * state :=
  match selected with
  | [] => (inr tt, st)
  | key :: rest =>
      match body key st with
      | (inl e, st') => (inl e, st')
      | (inr _, st') => for_each rest st'
      end
  end.

(** [results = {}] followed by the loop over [selected_scenarios]. *)
Definition run (selected_scenarios : list string) : py unit * state :=
  for_each selected_scenarios (mkState ∅ []).

End Runner.

(** The mapping the plotting code below the loop gets to see: none when
    the loop ended in an exception, which ends the script. *)
Definition delivered (out : py unit * state) : option (gmap string Ode.result) :=
  match fst out with
  | inl _ => None
  | inr _ => Some (results (snd out))
  end.

(** ** Derived quantities (lines 104 and 117) *)

Definition total (sol : Ode.result) : list Q := Np.sum_axis0 (Ode.y sol).

Definition proportions (sol : Ode.result) : py (list (list Np.float)) :=
  Np.divide2 (Ode.y sol) (Np.sum_axis0 (Ode.y sol)).

(** The right-hand side as section 4.1 of the specification writes it,
    component [i] of [dx/dt]; used only to compare [tumor_dynamics]
    against. *)
Module Spec.

Definition others (i : nat) : list nat :=
  List.filter (fun j => negb (j =? i)%nat) [0; 1; 2]%nat.

Definition sigma (js : list nat) (f : nat -> Q) : Q :=
  fold_right (fun j acc => f j + acc) 0 js.

Definition entry (T : list (list Q)) (i j : nat) : Q :=
  nth j (nth i T []) 0.

Definition derivative (i : nat) (x : list Q) (epsilon : Q) (mu : list Q)
    (T : list (list Q)) : Q :=
  let xi := nth i x 0 in
  let total := nth 0 x 0 + nth 1 x 0 + nth 2 x 0 in
  nth i r 0 * xi * (1 - total / K)
  - epsilon * nth i mu 0 * xi
  + sigma (others i) (fun j => entry T i j * nth j x 0)
  - xi * sigma (others i) (fun j => entry T i j).

End Spec.

(** ** Vocabulary of the statements *)

Definition known (key : string) : Prop := key ∈ keys scenarios.

(** The parameter ranges of section 3 of the specification. *)
Definition in_unit (q : Q) : Prop := 0 <= q /\ q <= 1.

Definition config_ok (config : Config.t) : Prop :=
  length (Config.mu config) = 3%nat
  /\ Forall in_unit (Config.mu config)
  /\ in_unit (Config.epsilon config)
  /\ 0 <= Config.transition config.

(** Differences of neighbours in a sequence. *)
Definition diffs (l : list Q) : list Q := zip_with (fun a b => b - a) l (tail l).

(** What SciPy promises about the shape of a returned [OdeResult]: one
    column of [y] per time point of [t]. *)
Definition samples_match (sol : Ode.result) : Prop :=
  Forall (fun row => length row = length (Ode.t sol)) (Ode.y sol).

(** Fail-fast as the specification words it: a selection with an
    unknown name fails with no integration done and nothing stored. *)
Definition fail_fast (solve_ivp : solver) : Prop :=
  forall selected : list string,
    (exists key, key ∈ selected /\ ~ known key) ->
    exists bad,
      fst (run solve_ivp selected) = inl (KeyError bad)
      /\ calls (snd (run solve_ivp selected)) = []
      /\ results (snd (run solve_ivp selected)) = ∅.

(** The guard the specification asks of a proportion where the total
    is zero: it is zero, or the undefined marker. *)
Definition guarded_value (v : Np.float) : Prop :=
  match v with
  | Np.Finite q => q == 0
  | Np.NaN => True
  | Np.PosInf | Np.NegInf => False
  end.

(** ** A stand-in integrator for the examples

    It is not SciPy's method.  It evaluates the derivative once, at the
    start: when that raises, or when the total shrinks there, it reports
    a failed step with no samples; otherwise it reports the initial
    state at every evaluation time. *)
Definition probe_solver : solver :=
  fun f span y0 te =>
    let failed := Ode.mk [] (map (fun _ => []) y0) (-1) false in
    match f (fst span) y0 with
    | inl _ => failed
    | inr d =>
        if Qle_bool 0 (Np.sum d)
        then Ode.mk te (map (fun v => repeat v (length te)) y0) 0 true
        else failed
    end.

(** ** The two figures (lines 101-126)

    What the two plotting loops compute and hand to Matplotlib.  Drawing
    itself is Matplotlib's and Streamlit's; a figure is modelled as the
    list of curves added to its axes, in the order of the [plot] calls,
    and the horizontal lines added with [axhline]. *)

Inductive script_exn : Type :=
| Py (e : exn)
| IndexError.

Definition render (A : Type) : Type := (script_exn + A)%type.

Definition rbind {A B : Type} (m : render A) (k : A -> render B) : render B :=
  match m with
  | inl e => inl e
  | inr a => k a
  end.

Notation "'let?' x ':=' m 'in' k" := (rbind m (fun x => k))
  (at level 10, x name, m at level 100, k at level 200).

Definition lift {A : Type} (m : py A) : render A :=
  match m with
  | inl e => inl (Py e)
  | inr a => inr a
  end.

Module Plot.

Record curve (A : Type) : Type := mk { label : string; xs : list Q; ys : list A }.
Arguments mk {A} _ _ _.
Arguments label {A} _.
Arguments xs {A} _.
Arguments ys {A} _.

Record figure (A : Type) : Type :=
  mkFigure { curves : list (curve A); hlines : list Q }.
Arguments mkFigure {A} _ _.
Arguments curves {A} _.
Arguments hlines {A} _.

(** [ax.plot(x, y, label=...)]: one more curve on the axes; Matplotlib
    raises [ValueError] ("x and y must have same first dimension") for
    sequences of different lengths. *)
Definition plot {A : Type} (ax : list (curve A)) (x : list Q) (y : list A)
    (label : string) : render (list (curve A)) :=
  if (length x =? length y)%nat then inr (ax ++ [mk label x y])
  else inl (Py ValueError).

End Plot.

(** [results[key]] on the dict the loop has built. *)
Definition result_of (res : gmap string Ode.result) (key : string) : render Ode.result :=
  match res !! key with
  | Some sol => inr sol
  | None => inl (Py (KeyError key))
  end.

(** [a[i]] along the first axis of a two-dimensional array. *)
Definition row {A : Type} (a : list (list A)) (i : nat) : render (list A) :=
  match a !! i with
  | Some v => inr v
  | None => inl IndexError
  end.

(** Lines 103-105. *)
Fixpoint figure1 (res : gmap string Ode.result) (selected : list string)
    (ax1 : list (Plot.curve Q)) : render (list (Plot.curve Q)) :=
  match selected with
  | [] => inr ax1
  | key :: rest =>
      let? sol := result_of res key in
      let? ax1 := Plot.plot ax1 (Ode.t sol) (total sol) key in
      figure1 res rest ax1
  end.

(** Lines 116-120. *)
Fixpoint figure2 (res : gmap string Ode.result) (selected : list string)
    (ax2 : list (Plot.curve Np.float)) : render (list (Plot.curve Np.float)) :=
  match selected with
  | [] => inr ax2
  | key :: rest =>
      let? sol := result_of res key in
      let? proportions := lift (proportions sol) in
      let? p0 := row proportions 0 in
      let? ax2 := Plot.plot ax2 (Ode.t sol) p0 (key ++ " - Sensitive") in
      let? p1 := row proportions 1 in
      let? ax2 := Plot.plot ax2 (Ode.t sol) p1 (key ++ " - Partial") in
      let? p2 := row proportions 2 in
      let? ax2 := Plot.plot ax2 (Ode.t sol) p2 (key ++ " - Resistant") in
      figure2 res rest ax2
  end.

(** The script from line 89 on: the loop, then the figure of the totals
    with the clinical threshold at 0.2, then the figure of the
    proportions.  The value is what the two [st.pyplot] calls show when
    the script runs to its end. *)
Definition script (solve_ivp : solver) (selected_scenarios : list string)
    : render (Plot.figure Q * Plot.figure Np.float) :=
  match run solve_ivp selected_scenarios with
  | (inl e, _) => inl (Py e)
  | (inr _, st) =>
      let? ax1 := figure1 (results st) selected_scenarios [] in
      let fig1 := Plot.mkFigure ax1 [0.2] in
      let? ax2 := figure2 (results st) selected_scenarios [] in
      inr (fig1, Plot.mkFigure ax2 [])
  end.

(** What SciPy promises about a result for the three-component initial
    state: three rows, one column per time point. *)
Definition well_shaped (sol : Ode.result) : Prop :=
  length (Ode.y sol) = 3%nat /\ samples_match sol.

Definition aligned {A : Type} (c : Plot.curve A) : Prop :=
  length (Plot.xs c) = length (Plot.ys c).

(** Two results with the same samples, whatever their [status] and
    [success]; two dicts whose entries have the same samples. *)
Definition same_samples (sol1 sol2 : Ode.result) : Prop :=
  Ode.t sol1 = Ode.t sol2 /\ Ode.y sol1 = Ode.y sol2.

Definition same_entries (res1 res2 : gmap string Ode.result) : Prop :=
  forall key, option_Forall2 same_samples (res1 !! key) (res2 !! key).

(** The three curves lines 118-120 add for one scenario. *)
Definition proportion_curves (key : string) (sol : Ode.result)
    (ps pp pr : list Np.float) : list (Plot.curve Np.float) :=
  [ Plot.mk (key ++ " - Sensitive") (Ode.t sol) ps;
    Plot.mk (key ++ " - Partial") (Ode.t sol) pp;
    Plot.mk (key ++ " - Resistant") (Ode.t sol) pr ].

(** A failure that is not swallowed, as the specification words it: an
    integration reported as failed shows in what the script produces,
    which then differs from what it produces when the same samples are
    reported as a success. *)
Definition failure_reported : Prop :=
  forall (solve_ivp solve_ivp' : solver) (selected : list string)
         (key : string) (config : Config.t),
    Forall known selected ->
    key ∈ selected ->
    getitem scenarios key = inr config ->
    (forall f span y0 te,
        same_samples (solve_ivp f span y0 te) (solve_ivp' f span y0 te)) ->
    Ode.success (integrate solve_ivp config) = false ->
    Ode.success (integrate solve_ivp' config) = true ->
    script solve_ivp selected <> script solve_ivp' selected.

(** An integrator that returns the samples of another one and always
    reports success. *)
Definition reporting_success (solve_ivp : solver) : solver :=
  fun f span y0 te =>
    let sol := solve_ivp f span y0 te in
    Ode.mk (Ode.t sol) (Ode.y sol) 0 true.

(** C1.  For every time, every three-component state, and every
    parameter bundle (epsilon, mu, 3x3 matrix T, diagonal included),
    [tumor_dynamics] returns without raising a three-component vector
    whose component [i] equals
    [r_i x_i (1 - (x_1+x_2+x_3)/K) - epsilon mu_i x_i
     + sum_(j<>i) T_ij x_j - x_i sum_(j<>i) T_ij]. *)
Theorem tumor_dynamics_formula :
  forall (t x1 x2 x3 epsilon m1 m2 m3 : Q)
         (a11 a12 a13 a21 a22 a23 a31 a32 a33 : Q),
    let x := [x1; x2; x3] in
    let mu := [m1; m2; m3] in
    let T := [[a11; a12; a13]; [a21; a22; a23]; [a31; a32; a33]] in
    exists d1 d2 d3 : Q,
      tumor_dynamics t x epsilon mu T = inr [d1; d2; d3]
      /\ d1 == Spec.derivative 0 x epsilon mu T
      /\ d2 == Spec.derivative 1 x epsilon mu T
      /\ d3 == Spec.derivative 2 x epsilon mu T.
Proof.
  intros. do 3 eexists. split; [reflexivity|].
  unfold Spec.derivative, Spec.sigma, Spec.entry, Np.sum, K; cbn.
  repeat split; field.
Qed.

(** ** The state-transition term *)

(** C4.  For a scenario whose [transition] scalar is zero, the
    state-transition term computed from the scaled matrix
    [base_transition * config["transition"]] is the zero vector, whatever
    the three-component state. *)
Theorem transition_zero_scalar :
  forall (config : Config.t) (x1 x2 x3 : Q),
    Config.transition config == 0 ->
    exists d1 d2 d3 : Q,
      transition (Np.scale2 base_transition (Config.transition config))
                 [x1; x2; x3] = inr [d1; d2; d3]
      /\ d1 == 0 /\ d2 == 0 /\ d3 == 0.
Proof.
  intros config x1 x2 x3 Hc. do 3 eexists. split; [reflexivity|].
  unfold Np.sum; cbn. rewrite !Hc. repeat split; ring.
Qed.

Lemma transition_zero_scalar_witness :
  (getitem scenarios "Scenario 5: Experimental control" =
     inr (Config.mk [0.6; 0.6; 0.6] 0.0 0.0)
   /\ Config.transition (Config.mk [0.6; 0.6; 0.6] 0.0 0.0) == 0)
  /\ exists d1 d2 d3 : Q,
      transition (Np.scale2 base_transition 0.0) x0 = inr [d1; d2; d3]
      /\ d1 == 0 /\ d2 == 0 /\ d3 == 0.
Proof.
  split; [split; reflexivity|].
  apply (transition_zero_scalar (Config.mk [0.6; 0.6; 0.6] 0.0 0.0)
           0.03 0.015 0.005).
  reflexivity.
Defined.

(** C10.  The state-transition term does not conserve total mass: with
    the scaled base matrix its three components add up to
    [0.0003 * transition * (x_resistant - x_sensitive)], and this is not
    zero for the initial state [x0] under Scenario 1 ([transition = 1.0]),
    a state with non-negative entries. *)
Theorem transition_not_conservative :
  (forall (c x1 x2 x3 : Q),
      exists d : list Q,
        transition (Np.scale2 base_transition c) [x1; x2; x3] = inr d
        /\ Np.sum d == 0.0003 * c * (x3 - x1))
  /\ (exists (config : Config.t) (x d : list Q),
        getitem scenarios "Scenario 1: Sensitive + High therapy" = inr config
        /\ Forall (fun v => 0 <= v) x
        /\ transition (Np.scale2 base_transition (Config.transition config)) x
           = inr d
        /\ ~ Np.sum d == 0).
Proof.
  split.
  - intros c x1 x2 x3. eexists. split; [reflexivity|].
    unfold Np.sum; cbn. ring.
  - exists (Config.mk [0.9; 0.5; 0.1] 0.8 1.0), x0. eexists.
    split; [reflexivity|]. split.
    + unfold x0. repeat constructor; discriminate.
    + split; [reflexivity|]. vm_compute. discriminate.
Qed.

(** ** Parameter ranges of the table *)

(** C6.  Every entry of [scenarios] has its three [mu] in [0,1], its
    [epsilon] in [0,1] and its [transition] non-negative; [base_transition]
    is a 3x3 matrix of non-negative entries with a zero diagonal; the
    entries of [x0] are strictly positive. *)
Theorem table_invariants :
  Forall (fun entry => config_ok (snd entry)) scenarios
  /\ Forall (Forall (fun a => 0 <= a)) base_transition
  /\ Forall (fun i => Spec.entry base_transition i i == 0) [0; 1; 2]%nat
  /\ Forall (fun v => 0 < v) x0.
Proof.
  split; [|split; [|split]].
  - unfold scenarios, config_ok, in_unit; cbn.
    repeat constructor; discriminate.
  - unfold base_transition. repeat constructor; discriminate.
  - repeat constructor.
  - unfold x0. repeat constructor.
Qed.

(** ** The runner *)

(** Membership of a literal name in the table's keys. *)
Ltac table_key :=
  unfold known; apply list_elem_of_In; simpl; tauto.

Lemma getitem_known {V : Type} (d : list (string * V)) (key : string) :
  key ∈ keys d -> exists v, getitem d key = inr v.
Proof.
  induction d as [|[k v] d IH]; simpl; intros Hin.
  - inversion Hin.
  - destruct (String.eqb_spec k key) as [->|Hne]; [eauto|].
    apply IH. inversion Hin; subst; [congruence|assumption].
Qed.

Lemma getitem_unknown {V : Type} (d : list (string * V)) (key : string) :
  key ∉ keys d -> getitem d key = inl (KeyError key).
Proof.
  induction d as [|[k v] d IH]; simpl; intros Hout; [reflexivity|].
  destruct (String.eqb_spec k key) as [->|Hne].
  - exfalso. apply Hout. left.
  - apply IH. intros Hin. apply Hout. right. exact Hin.
Qed.

Lemma first_unknown (selected : list string) :
  (exists key, key ∈ selected /\ ~ known key) ->
  exists pre bad post,
    selected = pre ++ bad :: post /\ Forall known pre /\ ~ known bad.
Proof.
  induction selected as [|k rest IH]; intros (key & Hin & Hun).
  - inversion Hin.
  - destruct (decide (known k)) as [Hk|Hk].
    + destruct IH as (pre & bad & post & -> & Hpre & Hbad).
      { exists key. split; [|exact Hun].
        inversion Hin; subst; [contradiction|assumption]. }
      exists (k :: pre), bad, post. repeat split; [constructor|]; assumption.
    + exists [], k, rest. repeat split; [constructor|assumption].
Qed.

Section RunnerFacts.

Variable solve_ivp : solver.

Lemma body_known key st config :
  getitem scenarios key = inr config ->
  body solve_ivp key st =
    (inr tt, mkState (<[key := integrate solve_ivp config]> (results st))
                     (calls st ++ [key])).
Proof. intros H. unfold body. rewrite H. reflexivity. Qed.

Lemma for_each_app l1 l2 st :
  for_each solve_ivp (l1 ++ l2) st =
    match for_each solve_ivp l1 st with
    | (inl e, st') => (inl e, st')
    | (inr _, st') => for_each solve_ivp l2 st'
    end.
Proof.
  revert st. induction l1 as [|k l1 IH]; intros st; simpl; [reflexivity|].
  destruct (body solve_ivp k st) as [[e|[]] st']; [reflexivity|apply IH].
Qed.

(** A selection of known names runs to the end: every name is
    integrated, in order, and stored. *)
Lemma for_each_known selected st :
  Forall known selected ->
  exists st',
    for_each solve_ivp selected st = (inr tt, st')
    /\ calls st' = calls st ++ selected
    /\ forall key,
         results st' !! key =
           if decide (key ∈ selected) then answer solve_ivp key
           else results st !! key.
Proof.
  intros Hall. revert st.
  induction Hall as [|k rest Hk Hrest IH]; intros st.
  - exists st. rewrite app_nil_r.
    split; [reflexivity|]. split; [reflexivity|].
    intros key. destruct (decide (key ∈ [])) as [Hin|_]; [inversion Hin|reflexivity].
  - destruct (getitem_known scenarios k Hk) as [config Hc].
    simpl. rewrite (body_known k st config Hc).
    destruct (IH (mkState (<[k := integrate solve_ivp config]> (results st))
                          (calls st ++ [k]))) as (st' & Hrun & Hcalls & Hres).
    exists st'. split; [exact Hrun|]. split.
    + rewrite Hcalls. simpl. rewrite <- app_assoc. reflexivity.
    + intros key. rewrite Hres. simpl.
      destruct (decide (key ∈ rest)) as [Hin|Hout].
      * rewrite decide_True by (right; exact Hin). reflexivity.
      * destruct (decide (key = k)) as [->|Hne].
        -- rewrite decide_True by left.
           rewrite lookup_insert_eq. unfold answer. rewrite Hc. reflexivity.
        -- rewrite decide_False.
           ++ apply lookup_insert_ne. congruence.
           ++ intros Hin. inversion Hin; subst; contradiction.
Qed.

(** The derivative function of any bundle with three [mu] evaluates on
    every three-component state. *)
Lemma model_total (config : Config.t) (t x1 x2 x3 : Q) :
  length (Config.mu config) = 3%nat ->
  exists d, model config t [x1; x2; x3] = inr d /\ length d = 3%nat.
Proof.
  destruct config as [[|m1 [|m2 [|m3 [|m4 mu]]]] eps c]; simpl;
    intros Hlen; try discriminate.
  eexists. split; reflexivity.
Qed.

End RunnerFacts.

Lemma known_answer (solve_ivp : solver) (key : string) :
  known key -> is_Some (answer solve_ivp key).
Proof.
  intros Hk. destruct (getitem_known scenarios key Hk) as [config Hc].
  unfold answer. rewrite Hc. eauto.
Qed.

(** C3, as the code has it.  A selection with a name that is not in the
    table splits at its first such name [bad]: the run ends in
    [KeyError bad]; by then every name before [bad] has been integrated
    and stored, in order, and nothing after it; the exception ends the
    script, so no mapping reaches the plotting code. *)
Theorem run_unknown_scenario :
  forall (solve_ivp : solver) (selected : list string),
    (exists key, key ∈ selected /\ ~ known key) ->
    exists pre bad post,
      selected = pre ++ bad :: post
      /\ Forall known pre
      /\ ~ known bad
      /\ fst (run solve_ivp selected) = inl (KeyError bad)
      /\ calls (snd (run solve_ivp selected)) = pre
      /\ Forall (fun key =>
                   is_Some (answer solve_ivp key)
                   /\ results (snd (run solve_ivp selected)) !! key
                      = answer solve_ivp key) pre
      /\ dom (results (snd (run solve_ivp selected))) = list_to_set pre
      /\ delivered (run solve_ivp selected) = None.
Proof.
  intros solve_ivp selected Hex.
  destruct (first_unknown selected Hex) as (pre & bad & post & -> & Hpre & Hbad).
  exists pre, bad, post.
  destruct (for_each_known solve_ivp pre (mkState ∅ []) Hpre)
    as (st' & Hrun & Hcalls & Hres).
  simpl in Hcalls, Hres.
  assert (Hout : run solve_ivp (pre ++ bad :: post) = (inl (KeyError bad), st')).
  { unfold run. rewrite for_each_app, Hrun. simpl. unfold body.
    rewrite (getitem_unknown scenarios bad Hbad). reflexivity. }
  unfold delivered. rewrite Hout. simpl.
  repeat split; try assumption.
  - apply Forall_forall. intros key Hin. split.
    + apply known_answer. eapply Forall_forall in Hpre; eauto.
    + rewrite Hres. rewrite decide_True by exact Hin. reflexivity.
  - apply set_eq. intros key.
    rewrite elem_of_dom, Hres, elem_of_list_to_set.
    destruct (decide (key ∈ pre)) as [Hin|Hnin].
    + split; [intros _; exact Hin|intros _].
      apply known_answer. eapply Forall_forall in Hpre; eauto.
    + rewrite lookup_empty. split; [intros [? ?]; discriminate|contradiction].
Qed.

Lemma run_unknown_scenario_witness :
  let selected :=
    ["Scenario 1: Sensitive + High therapy"; "Scenario 8"]%string in
  (exists key, key ∈ selected /\ ~ known key)
  /\ exists pre bad post,
      selected = pre ++ bad :: post
      /\ Forall known pre
      /\ ~ known bad
      /\ fst (run probe_solver selected) = inl (KeyError bad)
      /\ calls (snd (run probe_solver selected)) = pre
      /\ Forall (fun key =>
                   is_Some (answer probe_solver key)
                   /\ results (snd (run probe_solver selected)) !! key
                      = answer probe_solver key) pre
      /\ dom (results (snd (run probe_solver selected))) = list_to_set pre
      /\ delivered (run probe_solver selected) = None.
Proof.
  intros selected.
  assert (Hex : exists key, key ∈ selected /\ ~ known key).
  { exists "Scenario 8"%string. split.
    - right. left.
    - unfold known. intros Hin. apply list_elem_of_In in Hin.
      simpl in Hin. intuition discriminate. }
  split; [exact Hex|].
  exact (run_unknown_scenario probe_solver selected Hex).
Defined.

(** C3, as the specification words it, fails: with a known name in front
    of the unknown one, the known one is integrated before the lookup of
    the unknown one raises -- with every integrator. *)
Lemma fail_fast_counterexample :
  calls (snd (run probe_solver
                ["Scenario 1: Sensitive + High therapy"; "Scenario 8"]%string))
    = ["Scenario 1: Sensitive + High therapy"%string]
  /\ ~ (exists solve_ivp : solver, fail_fast solve_ivp).
Proof.
  split; [reflexivity|].
  intros [solve_ivp Hff].
  destruct (Hff ["Scenario 1: Sensitive + High therapy"; "Scenario 8"]%string)
    as (bad & _ & Hcalls & _).
  - exists "Scenario 8"%string. split.
    + right. left.
    + unfold known. intros Hin. apply list_elem_of_In in Hin.
      simpl in Hin. intuition discriminate.
  - discriminate Hcalls.
Qed.

(** The stand-in integrator does tell the two apart: under the control
    scenario the total grows at the start and it reports success. *)
Example probe_solver_control :
  Ode.success (integrate probe_solver (Config.mk [0.6; 0.6; 0.6] 0.0 0.0)) = true.
Proof. vm_compute. reflexivity. Qed.

(** ** The evaluation grid *)

Lemma inject_nat_nonzero (n : nat) :
  (0 < n)%nat -> ~ inject_Z (Z.of_nat n) == 0.
Proof.
  intros Hn H. unfold Qeq, inject_Z in H; simpl in H. lia.
Qed.

Lemma linspace_length a b n : length (Np.linspace a b n) = n.
Proof.
  unfold Np.linspace.
  destruct (1 <? n)%nat; destruct (0 <? n - 1)%nat;
    try destruct (Qeq_bool _ 0);
    rewrite ?length_insert, !length_fmap, length_seq; reflexivity.
Qed.

(** Sample [i] of a grid of at least two points, the last included. *)
Lemma linspace_lookup a b n i :
  (2 <= n)%nat -> (i < n)%nat ->
  exists v,
    Np.linspace a b n !! i = Some v
    /\ v == a + inject_Z (Z.of_nat i) * ((b - a) / inject_Z (Z.of_nat (n - 1))).
Proof.
  intros Hn Hi.
  assert (Hnz : ~ inject_Z (Z.of_nat (n - 1)) == 0)
    by (apply inject_nat_nonzero; lia).
  unfold Np.linspace.
  replace (1 <? n)%nat with true by (symmetry; apply Nat.ltb_lt; lia).
  replace (0 <? n - 1)%nat with true by (symmetry; apply Nat.ltb_lt; lia).
  destruct (decide (i = n - 1)%nat) as [->|Hne].
  - exists b. split.
    + apply list_lookup_insert_eq.
      destruct (Qeq_bool _ 0); rewrite !length_fmap, length_seq; lia.
    + field. exact Hnz.
  - rewrite list_lookup_insert_ne by congruence.
    destruct (Qeq_bool _ 0);
      rewrite !list_lookup_fmap, lookup_seq_lt by lia; simpl;
      eexists; (split; [reflexivity|]); field; exact Hnz.
Qed.

Lemma linspace_diffs a b n :
  (2 <= n)%nat ->
  Forall (fun d => d == (b - a) / inject_Z (Z.of_nat (n - 1)))
         (diffs (Np.linspace a b n)).
Proof.
  intros Hn. apply Forall_lookup. intros i d Hd.
  unfold diffs in Hd. apply lookup_zip_with_Some in Hd.
  destruct Hd as (u & v & -> & Hu & Hv).
  rewrite lookup_tail in Hv.
  assert (Hi : (S i < n)%nat).
  { apply lookup_lt_Some in Hv. rewrite linspace_length in Hv. exact Hv. }
  destruct (linspace_lookup a b n i Hn ltac:(lia)) as (u' & Hu' & Eu).
  destruct (linspace_lookup a b n (S i) Hn Hi) as (v' & Hv' & Ev).
  rewrite Hu in Hu'. rewrite Hv in Hv'.
  injection Hu' as <-. injection Hv' as <-.
  rewrite Eu, Ev, Nat2Z.inj_succ. unfold Z.succ. rewrite inject_Z_plus.
  field. apply inject_nat_nonzero. lia.
Qed.

Lemma increasing_of_diffs (l : list Q) :
  Forall (fun d => 0 < d) (diffs l) -> StronglySorted Qlt l.
Proof.
  intros H. apply Sorted_StronglySorted.
  - intros u v w. apply Qlt_trans.
  - induction l as [|a [|b l] IH].
    + constructor.
    + repeat constructor.
    + change (diffs (a :: b :: l)) with ((b - a) :: diffs (b :: l)) in H.
      inversion H; subst.
      constructor; [apply IH; assumption|]. constructor. lra.
Qed.

Lemma probe_solver_samples_match f span y0 te :
  samples_match (probe_solver f span y0 te).
Proof.
  assert (Hfailed : samples_match (Ode.mk [] (map (fun _ => []) y0) (-1) false)).
  { unfold samples_match. simpl. apply Forall_forall. intros row Hin.
    apply list_elem_of_In, in_map_iff in Hin. destruct Hin as (? & <- & _).
    reflexivity. }
  unfold probe_solver. destruct (f (fst span) y0) as [e|d]; [exact Hfailed|].
  destruct (Qle_bool 0 (Np.sum d)); [|exact Hfailed].
  unfold samples_match. simpl. apply Forall_forall. intros row Hin.
  apply list_elem_of_In, in_map_iff in Hin. destruct Hin as (v & <- & _).
  apply repeat_length.
Qed.

(** The grid of line 71: 300 samples, the first 0 and the last 300,
    strictly increasing, and in exact arithmetic neighbours 300/299
    apart. *)
Lemma t_eval_samples :
  length t_eval = 300%nat
  /\ (exists first, head t_eval = Some first /\ first == 0)
  /\ last t_eval = Some 300
  /\ Forall (fun d => d == 300 / 299) (diffs t_eval)
  /\ StronglySorted Qlt t_eval.
Proof.
  assert (Hd : Forall (fun d => d == 300 / 299) (diffs t_eval)).
  { eapply Forall_impl; [apply (linspace_diffs 0 300 300); lia|].
    intros d Hd. simpl in Hd. rewrite Hd. reflexivity. }
  split; [|split; [|split; [|split]]].
  - apply linspace_length.
  - eexists. split; [reflexivity|]. reflexivity.
  - vm_compute. reflexivity.
  - exact Hd.
  - apply increasing_of_diffs. eapply Forall_impl; [exact Hd|].
    intros d Hq. simpl in Hq. rewrite Hq. reflexivity.
Qed.

(** ** Proportions *)

Lemma true_divide_finite (a b : Q) :
  ~ b == 0 -> Np.true_divide a b = Np.Finite (a / b).
Proof.
  intros Hb. unfold Np.true_divide.
  destruct (Qeq_bool b 0) eqn:E; [|reflexivity].
  apply Qeq_bool_iff in E. contradiction.
Qed.


(** For a trajectory of three rows of equal length the division of
    line 117 does not raise: row by row, the components over the
    column totals. *)
Lemma proportions_rows (sol : Ode.result) (ys yp yr : list Q) :
  Ode.y sol = [ys; yp; yr] ->
  length yp = length ys -> length yr = length ys ->
  total sol = zip_with Qplus (zip_with Qplus ys yp) yr
  /\ proportions sol =
       inr [zip_with Np.true_divide ys (total sol);
            zip_with Np.true_divide yp (total sol);
            zip_with Np.true_divide yr (total sol)].
Proof.
  intros Hy Hp Hr. unfold proportions, total. rewrite Hy. simpl.
  split; [reflexivity|].
  set (tot := zip_with Qplus (zip_with Qplus ys yp) yr).
  assert (Hlen : length tot = length ys).
  { unfold tot. rewrite !length_zip_with. lia. }
  unfold Np.divide2, Np.broadcast. simpl.
  replace (length ys =? length tot)%nat with true
    by (symmetry; apply Nat.eqb_eq; lia).
  replace (length yp =? length tot)%nat with true
    by (symmetry; apply Nat.eqb_eq; lia).
  replace (length yr =? length tot)%nat with true
    by (symmetry; apply Nat.eqb_eq; lia).
  reflexivity.
Qed.

Lemma total_lookup (sol : Ode.result) (ys yp yr : list Q) k s p r :
  total sol = zip_with Qplus (zip_with Qplus ys yp) yr ->
  ys !! k = Some s -> yp !! k = Some p -> yr !! k = Some r ->
  total sol !! k = Some (s + p + r).
Proof.
  intros -> Hs Hp Hr. rewrite !lookup_zip_with, Hs, Hp, Hr. reflexivity.
Qed.

(** C5.  At a time point where the total of the three components is
    strictly positive, the three proportions are finite and add up
    to 1. *)
Theorem proportions_sum_to_one :
  forall (sol : Ode.result) (ys yp yr : list Q) (k : nat) (s p r : Q),
    Ode.y sol = [ys; yp; yr] ->
    length yp = length ys -> length yr = length ys ->
    ys !! k = Some s -> yp !! k = Some p -> yr !! k = Some r ->
    0 < s + p + r ->
    total sol !! k = Some (s + p + r)
    /\ exists (ps pp pr : list Np.float) (a b c : Q),
        proportions sol = inr [ps; pp; pr]
        /\ ps !! k = Some (Np.Finite a)
        /\ pp !! k = Some (Np.Finite b)
        /\ pr !! k = Some (Np.Finite c)
        /\ a + b + c == 1.
Proof.
  intros sol ys yp yr k s p r Hy Hlp Hlr Hs Hp Hr Hpos.
  destruct (proportions_rows sol ys yp yr Hy Hlp Hlr) as [Htot Hprop].
  pose proof (total_lookup sol ys yp yr k s p r Htot Hs Hp Hr) as Hk.
  assert (Hnz : ~ s + p + r == 0) by lra.
  split; [exact Hk|].
  do 3 eexists. exists (s / (s + p + r)), (p / (s + p + r)), (r / (s + p + r)).
  split; [exact Hprop|].
  rewrite !lookup_zip_with, Hs, Hp, Hr, Hk. simpl.
  rewrite !true_divide_finite by exact Hnz.
  repeat split. field. exact Hnz.
Qed.

Lemma proportions_sum_to_one_witness :
  let sol := Ode.mk [0; 1] [[0.03; 0.02]; [0.015; 0.03]; [0.005; 0.05]] 0 true in
  (Ode.y sol = [[0.03; 0.02]; [0.015; 0.03]; [0.005; 0.05]]
   /\ [0.03; 0.02] !! 1%nat = Some 0.02
   /\ [0.015; 0.03] !! 1%nat = Some 0.03
   /\ [0.005; 0.05] !! 1%nat = Some 0.05
   /\ 0 < 0.02 + 0.03 + 0.05)
  /\ total sol !! 1%nat = Some (0.02 + 0.03 + 0.05)
  /\ exists (ps pp pr : list Np.float) (a b c : Q),
      proportions sol = inr [ps; pp; pr]
      /\ ps !! 1%nat = Some (Np.Finite a)
      /\ pp !! 1%nat = Some (Np.Finite b)
      /\ pr !! 1%nat = Some (Np.Finite c)
      /\ a + b + c == 1.
Proof.
  intros sol. split; [repeat split; reflexivity|].
  apply (proportions_sum_to_one sol [0.03; 0.02] [0.015; 0.03] [0.005; 0.05]
           1 0.02 0.03 0.05); reflexivity.
Defined.




(** Outside the data model, on a column with a negative entry, the
    quotients by a zero total are signed infinities. *)
Example proportions_signed_column :
  proportions (Ode.mk [0] [[1]; [-1]; [0]] 0 true)
    = inr [[Np.PosInf]; [Np.NegInf]; [Np.NaN]].
Proof. reflexivity. Qed.

(** * Further properties of the script *)

(** ** Shapes the model accepts *)

Lemma bind_inr {A B : Type} (m : py A) (k : A -> py B) (b : B) :
  bind m k = inr b -> exists a, m = inr a /\ k a = inr b.
Proof. destruct m as [e|a]; simpl; [discriminate|eauto]. Qed.

(** A three-component array combines only with an array of three
    components or of one, and the result has three. *)
Lemma broadcast_three {B : Type} (f : Q -> Q -> B) (a b : list Q) (c : list B) :
  length a = 3%nat ->
  Np.broadcast f a b = inr c ->
  (length b = 3%nat \/ length b = 1%nat) /\ length c = 3%nat.
Proof.
  intros Ha. destruct a as [|a1 [|a2 [|a3 [|a4 a]]]]; try discriminate Ha.
  unfold Np.broadcast.
  destruct b as [|b1 [|b2 [|b3 [|b4 b]]]]; simpl; intros H;
    try discriminate H; injection H as <-; simpl; lia.
Qed.

Lemma matmul_inr (m : list (list Q)) (x v : list Q) :
  m @ x = inr v ->
  Forall (fun row => length row = length x) m /\ length v = length m.
Proof.
  unfold Np.matmul. revert v.
  induction m as [|row m IH]; simpl; intros v H.
  - injection H as <-. split; [constructor|reflexivity].
  - apply bind_inr in H. destruct H as (b & Hdot & H).
    apply bind_inr in H. destruct H as (bs & Hrest & H).
    injection H as <-. destruct (IH bs Hrest) as [Hall Hlen].
    unfold Np.dot in Hdot.
    destruct (length row =? length x)%nat eqn:E; [|discriminate].
    apply Nat.eqb_eq in E. split; [constructor; assumption|simpl; lia].
Qed.

(** X1.  Whenever [tumor_dynamics] returns, the state has three
    components (or one, which NumPy stretches), the derivative has
    exactly three, and every row of the matrix is as long as the state:
    the three growth rates written into the function fix the number of
    compartments, every other shape ends in [ValueError]. *)
Theorem tumor_dynamics_shape :
  forall (t : Q) (x : list Q) (epsilon : Q) (mu_profile : list Q)
         (transition_matrix : list (list Q)) (d : list Q),
    tumor_dynamics t x epsilon mu_profile transition_matrix = inr d ->
    (length x = 3%nat \/ length x = 1%nat)
    /\ length d = 3%nat
    /\ Forall (fun row => length row = length x) transition_matrix.
Proof.
  intros t x epsilon mu_profile T d H. unfold tumor_dynamics in H.
  apply bind_inr in H. destruct H as (te & Hte & H).
  apply bind_inr in H. destruct H as (rx & Hrx & H).
  apply bind_inr in H. destruct H as (tr & Htr & H).
  apply bind_inr in H. destruct H as (gt & Hgt & H).
  apply broadcast_three in Hrx; [|reflexivity]. destruct Hrx as [Hx Hlrx].
  apply broadcast_three in Hgt; [|rewrite length_map; exact Hlrx].
  destruct Hgt as [_ Hlgt].
  apply broadcast_three in H; [|exact Hlgt]. destruct H as [_ Hld].
  unfold transition in Htr.
  apply bind_inr in Htr. destruct Htr as (inflow & Hin & _).
  apply matmul_inr in Hin. destruct Hin as [Hrows _].
  split; [lia|]. split; [lia|exact Hrows].
Qed.

Lemma tumor_dynamics_shape_witness :
  exists d : list Q,
    tumor_dynamics 0 x0 0.8 [0.9; 0.5; 0.1] base_transition = inr d
    /\ (length x0 = 3%nat \/ length x0 = 1%nat)
    /\ length d = 3%nat
    /\ Forall (fun row => length row = length x0) base_transition.
Proof.
  destruct (tumor_dynamics 0 x0 0.8 [0.9; 0.5; 0.1] base_transition)
    as [e|d] eqn:H.
  - vm_compute in H. discriminate H.
  - exists d. split; [reflexivity|].
    exact (tumor_dynamics_shape 0 x0 0.8 [0.9; 0.5; 0.1] base_transition d H).
Defined.

(** A state of two components is refused, whatever the parameters. *)
Example tumor_dynamics_two_components :
  tumor_dynamics 0 [0.5; 0.5] 0.8 [0.9; 0.5] [[0; 1]; [1; 0]] = inl ValueError.
Proof. reflexivity. Qed.

(** ** What the right-hand side does to a tumor *)

(** Evaluates the model on a literal three-component state. *)
Ltac on_three_components :=
  do 3 eexists; split; [reflexivity|]; unfold Np.sum, K; cbn.

(** X2.  The tumor-free state is an equilibrium: at the zero state the
    derivative is the zero vector, for every therapy and every 3x3
    transition matrix. *)
Theorem tumor_free_equilibrium :
  forall (t epsilon m1 m2 m3 : Q)
         (a11 a12 a13 a21 a22 a23 a31 a32 a33 : Q),
    exists d1 d2 d3 : Q,
      tumor_dynamics t [0; 0; 0] epsilon [m1; m2; m3]
        [[a11; a12; a13]; [a21; a22; a23]; [a31; a32; a33]] = inr [d1; d2; d3]
      /\ d1 == 0 /\ d2 == 0 /\ d3 == 0.
Proof. intros. on_three_components. repeat split; field. Qed.

(** X3.  No compartment is pushed below zero: for a state with
    non-negative components and a matrix with non-negative off-diagonal
    entries, the derivative of a compartment that is empty is
    non-negative, whatever the therapy. *)
Theorem empty_compartment_inflow :
  forall (t x1 x2 x3 epsilon m1 m2 m3 : Q)
         (a11 a12 a13 a21 a22 a23 a31 a32 a33 : Q),
    0 <= x1 -> 0 <= x2 -> 0 <= x3 ->
    0 <= a12 -> 0 <= a13 -> 0 <= a21 -> 0 <= a23 -> 0 <= a31 -> 0 <= a32 ->
    exists d1 d2 d3 : Q,
      tumor_dynamics t [x1; x2; x3] epsilon [m1; m2; m3]
        [[a11; a12; a13]; [a21; a22; a23]; [a31; a32; a33]] = inr [d1; d2; d3]
      /\ (x1 == 0 -> 0 <= d1)
      /\ (x2 == 0 -> 0 <= d2)
      /\ (x3 == 0 -> 0 <= d3).
Proof.
  intros t x1 x2 x3 epsilon m1 m2 m3 a11 a12 a13 a21 a22 a23 a31 a32 a33
         H1 H2 H3 H12 H13 H21 H23 H31 H32.
  on_three_components.
  pose proof (Qmult_le_0_compat _ _ H12 H2).
  pose proof (Qmult_le_0_compat _ _ H13 H3).
  pose proof (Qmult_le_0_compat _ _ H21 H1).
  pose proof (Qmult_le_0_compat _ _ H23 H3).
  pose proof (Qmult_le_0_compat _ _ H31 H1).
  pose proof (Qmult_le_0_compat _ _ H32 H2).
  repeat split; intros Hz; rewrite !Hz; field_simplify; lra.
Qed.

(** Order and equality of literal rationals. *)
Ltac literal := unfold Qle, Qlt, Qeq; simpl; lia.

Lemma empty_compartment_inflow_witness :
  (0 <= 0 /\ 0 <= 0.015 /\ 0 <= 0.005)
  /\ exists d1 d2 d3 : Q,
      tumor_dynamics 0 [0; 0.015; 0.005] 0.8 [0.9; 0.5; 0.1] base_transition
        = inr [d1; d2; d3]
      /\ (0 == 0 -> 0 <= d1)
      /\ (0.015 == 0 -> 0 <= d2)
      /\ (0.005 == 0 -> 0 <= d3).
Proof.
  split; [repeat split; literal|].
  apply (empty_compartment_inflow 0 0 0.015 0.005 0.8 0.9 0.5 0.1
           0.0 0.001 0.0005 0.001 0.0 0.001 0.0002 0.001 0.0); literal.
Defined.

(** X4.  More therapy never speeds a compartment up: for non-negative
    sensitivities and a non-negative state, raising [epsilon] lowers (or
    keeps) every component of the derivative. *)
Theorem therapy_monotone :
  forall (t x1 x2 x3 e e' m1 m2 m3 : Q)
         (a11 a12 a13 a21 a22 a23 a31 a32 a33 : Q),
    e <= e' ->
    0 <= x1 -> 0 <= x2 -> 0 <= x3 ->
    0 <= m1 -> 0 <= m2 -> 0 <= m3 ->
    let T := [[a11; a12; a13]; [a21; a22; a23]; [a31; a32; a33]] in
    exists d1 d2 d3 d1' d2' d3' : Q,
      tumor_dynamics t [x1; x2; x3] e [m1; m2; m3] T = inr [d1; d2; d3]
      /\ tumor_dynamics t [x1; x2; x3] e' [m1; m2; m3] T = inr [d1'; d2'; d3']
      /\ d1' <= d1 /\ d2' <= d2 /\ d3' <= d3.
Proof.
  intros t x1 x2 x3 e e' m1 m2 m3 a11 a12 a13 a21 a22 a23 a31 a32 a33
         He H1 H2 H3 Hm1 Hm2 Hm3 T.
  do 6 eexists. split; [reflexivity|]. split; [reflexivity|].
  unfold Np.sum, K; cbn.
  assert (Hde : 0 <= e' - e) by lra.
  pose proof (Qmult_le_0_compat _ _ Hde (Qmult_le_0_compat _ _ Hm1 H1)).
  pose proof (Qmult_le_0_compat _ _ Hde (Qmult_le_0_compat _ _ Hm2 H2)).
  pose proof (Qmult_le_0_compat _ _ Hde (Qmult_le_0_compat _ _ Hm3 H3)).
  repeat split; nra.
Qed.

Lemma therapy_monotone_witness :
  0.3 <= 0.8
  /\ exists d1 d2 d3 d1' d2' d3' : Q,
      tumor_dynamics 0 x0 0.3 [0.9; 0.5; 0.1] base_transition = inr [d1; d2; d3]
      /\ tumor_dynamics 0 x0 0.8 [0.9; 0.5; 0.1] base_transition
         = inr [d1'; d2'; d3']
      /\ d1' <= d1 /\ d2' <= d2 /\ d3' <= d3.
Proof.
  split; [literal|].
  apply (therapy_monotone 0 0.03 0.015 0.005 0.3 0.8 0.9 0.5 0.1
           0.0 0.001 0.0005 0.001 0.0 0.001 0.0002 0.001 0.0); literal.
Defined.

(** X5.  The state-transition term only sees differences between
    compartments: in exact arithmetic its component [i] is the sum over
    [j] of [T_ij (x_j - x_i)], for every 3x3 matrix, the diagonal entries
    and the own share of the row sums cancelling.  (In [float64] that
    cancellation leaves a rounding residue; no exact zero is claimed.) *)
Theorem transition_differences :
  forall (x1 x2 x3 a11 a12 a13 a21 a22 a23 a31 a32 a33 : Q),
    let T := [[a11; a12; a13]; [a21; a22; a23]; [a31; a32; a33]] in
    exists d1 d2 d3 : Q,
      transition T [x1; x2; x3] = inr [d1; d2; d3]
      /\ d1 == a12 * (x2 - x1) + a13 * (x3 - x1)
      /\ d2 == a21 * (x1 - x2) + a23 * (x3 - x2)
      /\ d3 == a31 * (x1 - x3) + a32 * (x2 - x3).
Proof.
  intros. on_three_components. repeat split; ring.
Qed.

(** X6.  Scaling the matrix by the plasticity scalar scales the
    state-transition term: the term for [B * c] is [c] times the term
    for [B]. *)
Theorem transition_scale :
  forall (c x1 x2 x3 b11 b12 b13 b21 b22 b23 b31 b32 b33 : Q),
    let B := [[b11; b12; b13]; [b21; b22; b23]; [b31; b32; b33]] in
    exists d1 d2 d3 e1 e2 e3 : Q,
      transition (Np.scale2 B c) [x1; x2; x3] = inr [d1; d2; d3]
      /\ transition B [x1; x2; x3] = inr [e1; e2; e3]
      /\ d1 == c * e1 /\ d2 == c * e2 /\ d3 == c * e3.
Proof.
  intros. do 6 eexists. split; [reflexivity|]. split; [reflexivity|].
  unfold Np.sum; cbn. repeat split; ring.
Qed.

(** X7.  Rate of change of the total volume under a table-style bundle
    (three sensitivities, intensity [epsilon], plasticity [c]): growth of
    each compartment damped by the common factor [1 - total / K], minus
    the therapy losses, plus the [0.0003 c (x3 - x1)] that the transition
    term creates. *)
Theorem total_rate :
  forall (t x1 x2 x3 epsilon m1 m2 m3 c : Q),
    exists d : list Q,
      model (Config.mk [m1; m2; m3] epsilon c) t [x1; x2; x3] = inr d
      /\ Np.sum d ==
           (0.03 * x1 + 0.02 * x2 + 0.015 * x3) * (1 - (x1 + x2 + x3))
           - epsilon * (m1 * x1 + m2 * x2 + m3 * x3)
           + 0.0003 * c * (x3 - x1).
Proof.
  intros. eexists. split; [reflexivity|].
  unfold Np.sum, K; cbn. field.
Qed.



(** X9.  With no therapy and no plasticity (the control bundle) every
    compartment follows its own logistic law under the common total: for
    a non-negative state it does not shrink while the total is at most
    [K = 1], and does not grow while the total is at least [K]. *)
Theorem control_logistic :
  forall (t x1 x2 x3 epsilon m1 m2 m3 c : Q),
    epsilon == 0 -> c == 0 ->
    0 <= x1 -> 0 <= x2 -> 0 <= x3 ->
    exists d1 d2 d3 : Q,
      model (Config.mk [m1; m2; m3] epsilon c) t [x1; x2; x3] = inr [d1; d2; d3]
      /\ d1 == 0.03 * x1 * (1 - (x1 + x2 + x3))
      /\ d2 == 0.02 * x2 * (1 - (x1 + x2 + x3))
      /\ d3 == 0.015 * x3 * (1 - (x1 + x2 + x3))
      /\ (x1 + x2 + x3 <= 1 -> 0 <= d1 /\ 0 <= d2 /\ 0 <= d3)
      /\ (1 <= x1 + x2 + x3 -> d1 <= 0 /\ d2 <= 0 /\ d3 <= 0).
Proof.
  intros t x1 x2 x3 epsilon m1 m2 m3 c He Hc H1 H2 H3.
  on_three_components.
  assert (E1 : 0.03 * x1 * (1 - (0 + x1 + x2 + x3) / 1.0) + - epsilon * m1 * x1 +
               (0 + 0.0 * c * x1 + 0.001 * c * x2 + 0.0005 * c * x3
                - (0 + 0.0 * c + 0.001 * c + 0.0005 * c) * x1)
               == 0.03 * x1 * (1 - (x1 + x2 + x3)))
    by (rewrite He, Hc; field).
  assert (E2 : 0.02 * x2 * (1 - (0 + x1 + x2 + x3) / 1.0) + - epsilon * m2 * x2 +
               (0 + 0.001 * c * x1 + 0.0 * c * x2 + 0.001 * c * x3
                - (0 + 0.001 * c + 0.0 * c + 0.001 * c) * x2)
               == 0.02 * x2 * (1 - (x1 + x2 + x3)))
    by (rewrite He, Hc; field).
  assert (E3 : 0.015 * x3 * (1 - (0 + x1 + x2 + x3) / 1.0) + - epsilon * m3 * x3 +
               (0 + 0.0002 * c * x1 + 0.001 * c * x2 + 0.0 * c * x3
                - (0 + 0.0002 * c + 0.001 * c + 0.0 * c) * x3)
               == 0.015 * x3 * (1 - (x1 + x2 + x3)))
    by (rewrite He, Hc; field).
  split; [exact E1|]. split; [exact E2|]. split; [exact E3|].
  split; intros Ht; rewrite E1, E2, E3; repeat split; nra.
Qed.

Lemma control_logistic_witness :
  (0.0 == 0 /\ 0 <= 0.03 /\ 0 <= 0.015 /\ 0 <= 0.005)
  /\ exists d1 d2 d3 : Q,
      model (Config.mk [0.6; 0.6; 0.6] 0.0 0.0) 0 x0 = inr [d1; d2; d3]
      /\ d1 == 0.03 * 0.03 * (1 - (0.03 + 0.015 + 0.005))
      /\ d2 == 0.02 * 0.015 * (1 - (0.03 + 0.015 + 0.005))
      /\ d3 == 0.015 * 0.005 * (1 - (0.03 + 0.015 + 0.005))
      /\ (0.03 + 0.015 + 0.005 <= 1 -> 0 <= d1 /\ 0 <= d2 /\ 0 <= d3)
      /\ (1 <= 0.03 + 0.015 + 0.005 -> d1 <= 0 /\ d2 <= 0 /\ d3 <= 0).
Proof.
  split; [repeat split; literal|].
  apply (control_logistic 0 0.03 0.015 0.005 0.0 0.6 0.6 0.6 0.0); literal.
Defined.

(** ** The loop and the selection *)

(** What the loop leaves in [results] for a selection of table names. *)
Lemma run_known_lookup (solve_ivp : solver) (selected : list string) :
  Forall known selected ->
  exists res : gmap string Ode.result,
    run solve_ivp selected = (inr tt, mkState res selected)
    /\ forall key,
         res !! key = if decide (key ∈ selected) then answer solve_ivp key else None.
Proof.
  intros Hall.
  destruct (for_each_known solve_ivp selected (mkState ∅ []) Hall)
    as ([res cs] & Hrun & Hcalls & Hres).
  simpl in Hcalls, Hres. subst cs. exists res. split; [exact Hrun|].
  intros key. rewrite Hres. destruct (decide (key ∈ selected)); [reflexivity|].
  apply lookup_empty.
Qed.




(** X11.  The mapping depends only on which names are selected: two
    selections of table names with the same members, in any order and
    with any repetitions, leave the same [results]. *)
Theorem run_selection_order :
  forall (solve_ivp : solver) (selected selected' : list string),
    Forall known selected -> Forall known selected' ->
    (forall key, key ∈ selected <-> key ∈ selected') ->
    delivered (run solve_ivp selected) = delivered (run solve_ivp selected')
    /\ is_Some (delivered (run solve_ivp selected)).
Proof.
  intros solve_ivp selected selected' Hall Hall' Hsame.
  destruct (run_known_lookup solve_ivp selected Hall) as (res & Hrun & Hres).
  destruct (run_known_lookup solve_ivp selected' Hall') as (res' & Hrun' & Hres').
  unfold delivered. rewrite Hrun, Hrun'. simpl.
  split; [|eauto]. f_equal. apply map_eq. intros key.
  rewrite Hres, Hres'.
  destruct (decide (key ∈ selected)) as [Hin|Hnin];
    destruct (decide (key ∈ selected')) as [Hin'|Hnin'];
    try reflexivity; exfalso.
  - apply Hnin', Hsame, Hin.
  - apply Hnin, Hsame, Hin'.
Qed.

Lemma run_selection_order_witness :
  let selected :=
    ["Scenario 1: Sensitive + High therapy";
     "Scenario 5: Experimental control"]%string in
  let selected' :=
    ["Scenario 5: Experimental control";
     "Scenario 1: Sensitive + High therapy";
     "Scenario 5: Experimental control"]%string in
  (Forall known selected /\ Forall known selected'
   /\ forall key, key ∈ selected <-> key ∈ selected')
  /\ delivered (run probe_solver selected) = delivered (run probe_solver selected')
  /\ is_Some (delivered (run probe_solver selected)).
Proof.
  intros selected selected'.
  assert (Hall : Forall known selected) by (repeat constructor; table_key).
  assert (Hall' : Forall known selected') by (repeat constructor; table_key).
  assert (Hsame : forall key, key ∈ selected <-> key ∈ selected').
  { intros key. unfold selected, selected'.
    rewrite !elem_of_cons, !elem_of_nil. tauto. }
  split; [repeat split; try assumption; apply Hsame|].
  exact (run_selection_order probe_solver selected selected' Hall Hall' Hsame).
Defined.

(** ** Totals and proportions of any trajectory *)

Lemma sum_axis0_length (rows : list (list Q)) (row : list Q) (n : nat) :
  length row = n -> Forall (fun v => length v = n) rows ->
  length (fold_left (zip_with Qplus) rows row) = n.
Proof.
  intros Hrow Hrows. revert row Hrow.
  induction Hrows as [|v rows Hv Hrows IH]; intros row Hrow; simpl; [exact Hrow|].
  apply IH. rewrite length_zip_with. lia.
Qed.

Lemma divide2_shape (m : list (list Q)) (v : list Q) :
  Forall (fun row => length row = length v) m ->
  exists P,
    Np.divide2 m v = inr P
    /\ length P = length m
    /\ Forall (fun row => length row = length v) P.
Proof.
  unfold Np.divide2. induction 1 as [|row m Hrow Hm IH]; simpl.
  - exists []. repeat split. constructor.
  - destruct IH as (P & HP & Hlen & Hall).
    unfold Np.broadcast at 1.
    replace (length row =? length v)%nat with true
      by (symmetry; apply Nat.eqb_eq; exact Hrow).
    simpl. rewrite HP. simpl.
    eexists. split; [reflexivity|]. split; [simpl; lia|].
    constructor; [|exact Hall]. rewrite length_zip_with. lia.
Qed.

Lemma total_length (sol : Ode.result) :
  Ode.y sol <> [] -> samples_match sol ->
  length (total sol) = length (Ode.t sol).
Proof.
  intros Hne Hshape. unfold samples_match in Hshape.
  unfold total, Np.sum_axis0.
  destruct (Ode.y sol) as [|row rows]; [contradiction|].
  inversion Hshape; subst. apply sum_axis0_length; assumption.
Qed.

Lemma proportions_defined (sol : Ode.result) :
  Ode.y sol <> [] -> samples_match sol ->
  exists P : list (list Np.float),
    proportions sol = inr P
    /\ length P = length (Ode.y sol)
    /\ Forall (fun row => length row = length (Ode.t sol)) P.
Proof.
  intros Hne Hshape.
  pose proof (total_length sol Hne Hshape) as Htot.
  unfold proportions. fold (total sol). rewrite <- Htot.
  apply divide2_shape. rewrite Htot. exact Hshape.
Qed.

(** X12.  For a trajectory with at least one row and as many columns
    as time points -- any number of compartments -- the totals have one
    value per time point, and the division of line 117 does not raise,
    zero totals included: the proportions have the shape of the
    trajectory. *)
Theorem proportions_shape :
  forall sol : Ode.result,
    Ode.y sol <> [] -> samples_match sol ->
    length (total sol) = length (Ode.t sol)
    /\ exists P : list (list Np.float),
        proportions sol = inr P
        /\ length P = length (Ode.y sol)
        /\ Forall (fun row => length row = length (Ode.t sol)) P.
Proof.
  intros sol Hne Hshape. split.
  - apply total_length; assumption.
  - apply proportions_defined; assumption.
Qed.

Lemma proportions_shape_witness :
  let sol := Ode.mk [0; 1; 2] [[1; 0; 2]; [3; 0; -2]] 0 true in
  (Ode.y sol <> [] /\ samples_match sol)
  /\ length (total sol) = length (Ode.t sol)
  /\ exists P : list (list Np.float),
      proportions sol = inr P
      /\ length P = length (Ode.y sol)
      /\ Forall (fun row => length row = length (Ode.t sol)) P.
Proof.
  intros sol.
  assert (Hne : Ode.y sol <> []) by discriminate.
  assert (Hshape : samples_match sol) by (repeat constructor).
  split; [split; assumption|].
  exact (proportions_shape sol Hne Hshape).
Defined.

(** X14.  For non-negative components with a positive total, each
    proportion lies between 0 and 1. *)
Theorem proportions_unit_interval :
  forall (sol : Ode.result) (ys yp yr : list Q) (k : nat) (s p r : Q),
    Ode.y sol = [ys; yp; yr] ->
    length yp = length ys -> length yr = length ys ->
    ys !! k = Some s -> yp !! k = Some p -> yr !! k = Some r ->
    0 <= s -> 0 <= p -> 0 <= r -> 0 < s + p + r ->
    exists (ps pp pr : list Np.float) (a b c : Q),
      proportions sol = inr [ps; pp; pr]
      /\ ps !! k = Some (Np.Finite a)
      /\ pp !! k = Some (Np.Finite b)
      /\ pr !! k = Some (Np.Finite c)
      /\ in_unit a /\ in_unit b /\ in_unit c.
Proof.
  intros sol ys yp yr k s p r Hy Hlp Hlr Hs Hp Hr H0s H0p H0r Hpos.
  assert (Hnz : ~ s + p + r == 0) by lra.
  destruct (proportions_rows sol ys yp yr Hy Hlp Hlr) as [Htot Hprop].
  pose proof (total_lookup sol ys yp yr k s p r Htot Hs Hp Hr) as Hk.
  do 3 eexists. exists (s / (s + p + r)), (p / (s + p + r)), (r / (s + p + r)).
  split; [exact Hprop|].
  rewrite !lookup_zip_with, Hs, Hp, Hr, Hk. simpl.
  rewrite !true_divide_finite by exact Hnz.
  assert (Hunit : forall v, 0 <= v -> v <= s + p + r -> in_unit (v / (s + p + r))).
  { intros v Hv Hle. split.
    - apply Qle_shift_div_l; [exact Hpos|lra].
    - apply Qle_shift_div_r; [exact Hpos|lra]. }
  repeat split; try reflexivity; apply Hunit; lra.
Qed.

Lemma proportions_unit_interval_witness :
  let sol := Ode.mk [0; 1] [[0.03; 0.02]; [0.015; 0.03]; [0.005; 0.05]] 0 true in
  (0 <= 0.02 /\ 0 <= 0.03 /\ 0 <= 0.05 /\ 0 < 0.02 + 0.03 + 0.05)
  /\ exists (ps pp pr : list Np.float) (a b c : Q),
      proportions sol = inr [ps; pp; pr]
      /\ ps !! 1%nat = Some (Np.Finite a)
      /\ pp !! 1%nat = Some (Np.Finite b)
      /\ pr !! 1%nat = Some (Np.Finite c)
      /\ in_unit a /\ in_unit b /\ in_unit c.
Proof.
  intros sol. split; [repeat split; literal|].
  apply (proportions_unit_interval sol [0.03; 0.02] [0.015; 0.03] [0.005; 0.05]
           1 0.02 0.03 0.05); try reflexivity; literal.
Defined.

(** ** The figures *)

Lemma well_shaped_rows (sol : Ode.result) :
  well_shaped sol ->
  exists ps pp pr : list Np.float,
    proportions sol = inr [ps; pp; pr]
    /\ length ps = length (Ode.t sol)
    /\ length pp = length (Ode.t sol)
    /\ length pr = length (Ode.t sol).
Proof.
  intros [Hrows Hshape].
  assert (Hne : Ode.y sol <> []) by (intros E; rewrite E in Hrows; discriminate).
  destruct (proportions_defined sol Hne Hshape) as (P & HP & Hlen & Hall).
  rewrite Hrows in Hlen.
  destruct P as [|ps [|pp [|pr [|? ?]]]]; try discriminate Hlen.
  exists ps, pp, pr. split; [exact HP|].
  inversion Hall as [|? ? H1 Hall1]; subst.
  inversion Hall1 as [|? ? H2 Hall2]; subst.
  inversion Hall2 as [|? ? H3 _]; subst. repeat split; assumption.
Qed.

Lemma plot_aligned {A : Type} (ax : list (Plot.curve A)) x (y : list A) label :
  length x = length y ->
  Plot.plot ax x y label = inr (ax ++ [Plot.mk label x y]).
Proof.
  intros H. unfold Plot.plot.
  replace (length x =? length y)%nat with true
    by (symmetry; apply Nat.eqb_eq; exact H).
  reflexivity.
Qed.

Lemma figure1_draws (res : gmap string Ode.result) (selected : list string) :
  Forall (fun key => exists sol, res !! key = Some sol /\ well_shaped sol) selected ->
  forall ax1,
  exists cs,
    figure1 res selected ax1 = inr (ax1 ++ cs)
    /\ Forall2 (fun key c =>
                  exists sol, res !! key = Some sol
                              /\ c = Plot.mk key (Ode.t sol) (total sol))
               selected cs
    /\ Forall aligned cs.
Proof.
  induction 1 as [|key rest (sol & Hsol & Hw) Hrest IH]; intros ax1; simpl.
  - exists []. rewrite app_nil_r. repeat split; constructor.
  - unfold result_of. rewrite Hsol. simpl.
    assert (Hlen : length (Ode.t sol) = length (total sol)).
    { symmetry. destruct Hw as [Hrows Hshape]. apply total_length; [|exact Hshape].
      intros E. rewrite E in Hrows. discriminate. }
    rewrite (plot_aligned ax1 _ _ key Hlen). simpl.
    destruct (IH (ax1 ++ [Plot.mk key (Ode.t sol) (total sol)]))
      as (cs & Hfig & Hcs & Hal).
    exists (Plot.mk key (Ode.t sol) (total sol) :: cs).
    rewrite Hfig, <- app_assoc. simpl. split; [reflexivity|]. split.
    + constructor; [eauto|exact Hcs].
    + constructor; [exact Hlen|exact Hal].
Qed.

Lemma figure2_draws (res : gmap string Ode.result) (selected : list string) :
  Forall (fun key => exists sol, res !! key = Some sol /\ well_shaped sol) selected ->
  forall ax2,
  exists triples,
    figure2 res selected ax2 = inr (ax2 ++ concat triples)
    /\ Forall2 (fun key tr =>
                  exists sol ps pp pr,
                    res !! key = Some sol
                    /\ proportions sol = inr [ps; pp; pr]
                    /\ tr = proportion_curves key sol ps pp pr)
               selected triples
    /\ Forall aligned (concat triples).
Proof.
  induction 1 as [|key rest (sol & Hsol & Hw) Hrest IH]; intros ax2; simpl.
  - exists []. simpl. rewrite app_nil_r. repeat split; constructor.
  - unfold result_of. rewrite Hsol. simpl.
    destruct (well_shaped_rows sol Hw) as (ps & pp & pr & HP & Hs & Hp & Hr).
    rewrite HP. simpl.
    rewrite (plot_aligned ax2 _ ps _ (eq_sym Hs)). simpl.
    rewrite (plot_aligned _ _ pp _ (eq_sym Hp)). simpl.
    rewrite (plot_aligned _ _ pr _ (eq_sym Hr)). simpl.
    match goal with |- context [figure2 res rest ?ax] =>
      destruct (IH ax) as (triples & Hfig & Htr & Hal) end.
    exists (proportion_curves key sol ps pp pr :: triples).
    rewrite Hfig, <- !app_assoc. simpl. split; [reflexivity|]. split.
    + constructor; [|exact Htr]. exists sol, ps, pp, pr. repeat split; assumption.
    + repeat constructor; try (symmetry; assumption). exact Hal.
Qed.

(** X15.  For a selection of table names and an integrator whose
    results for the initial state [x0] have three rows and one column
    per time point, the script
    runs to its end: the first figure holds one curve per selected name,
    labelled with the name, of the totals over the result's own time
    points, and the threshold line at 0.2; the second holds three
    curves per name, the proportions of the three compartments; in every
    curve the abscissas and the ordinates are equally many.  Failed
    integrations are drawn like successful ones. *)
Theorem script_renders :
  forall (solve_ivp : solver) (selected : list string),
    Forall known selected ->
    (forall f span te, well_shaped (solve_ivp f span x0 te)) ->
    exists (fig1 : Plot.figure Q) (fig2 : Plot.figure Np.float)
           (triples : list (list (Plot.curve Np.float))),
      script solve_ivp selected = inr (fig1, fig2)
      /\ Plot.hlines fig1 = [0.2]
      /\ Forall2 (fun key c =>
                    exists sol, answer solve_ivp key = Some sol
                                /\ c = Plot.mk key (Ode.t sol) (total sol))
                 selected (Plot.curves fig1)
      /\ Plot.curves fig2 = concat triples
      /\ Forall2 (fun key tr =>
                    exists sol ps pp pr,
                      answer solve_ivp key = Some sol
                      /\ proportions sol = inr [ps; pp; pr]
                      /\ tr = proportion_curves key sol ps pp pr)
                 selected triples
      /\ Forall aligned (Plot.curves fig1)
      /\ Forall aligned (Plot.curves fig2).
Proof.
  intros solve_ivp selected Hall Hshape.
  destruct (run_known_lookup solve_ivp selected Hall) as (res & Hrun & Hres).
  assert (Hentries : forall key, key ∈ selected ->
            exists sol, res !! key = Some sol /\ well_shaped sol
                        /\ answer solve_ivp key = Some sol).
  { intros key Hin. rewrite Hres, decide_True by exact Hin.
    assert (Hk : known key) by (eapply Forall_forall in Hall; eauto).
    destruct (known_answer solve_ivp key Hk) as [sol Hsol].
    exists sol. repeat split; try exact Hsol.
    - unfold answer in Hsol. destruct (getitem scenarios key); [discriminate|].
      injection Hsol as <-. apply Hshape.
    - unfold answer in Hsol. destruct (getitem scenarios key); [discriminate|].
      injection Hsol as <-. apply Hshape. }
  assert (Hdrawn : Forall (fun key => exists sol, res !! key = Some sol
                                                  /\ well_shaped sol) selected).
  { apply Forall_forall. intros key Hin.
    destruct (Hentries key Hin) as (sol & ? & ? & _). eauto. }
  destruct (figure1_draws res selected Hdrawn []) as (cs & Hf1 & Hcs & Hal1).
  destruct (figure2_draws res selected Hdrawn []) as (triples & Hf2 & Htr & Hal2).
  exists (Plot.mkFigure cs [0.2]), (Plot.mkFigure (concat triples) []), triples.
  unfold script. rewrite Hrun. simpl. rewrite Hf1, Hf2. simpl.
  split; [reflexivity|]. split; [reflexivity|]. split.
  { eapply Forall2_impl; [exact Hcs|]. intros key c (sol & Hsol & ->).
    exists sol. split; [|reflexivity]. rewrite <- Hsol, Hres.
    destruct (decide (key ∈ selected)); [reflexivity|].
    rewrite Hres, decide_False in Hsol by assumption. discriminate. }
  split; [reflexivity|]. split.
  { eapply Forall2_impl; [exact Htr|].
    intros key tr (sol & ps & pp & pr & Hsol & HP & ->).
    exists sol, ps, pp, pr. repeat split; try assumption.
    rewrite <- Hsol, Hres.
    destruct (decide (key ∈ selected)); [reflexivity|].
    rewrite Hres, decide_False in Hsol by assumption. discriminate. }
  split; assumption.
Qed.

Lemma probe_solver_well_shaped f span te :
  well_shaped (probe_solver f span x0 te).
Proof.
  split; [|apply probe_solver_samples_match].
  unfold probe_solver. destruct (f (fst span) x0) as [e|d]; [reflexivity|].
  destruct (Qle_bool 0 (Np.sum d)); reflexivity.
Qed.

Lemma script_renders_witness :
  let selected :=
    ["Scenario 1: Sensitive + High therapy";
     "Scenario 5: Experimental control"]%string in
  (Forall known selected
   /\ forall f span te, well_shaped (probe_solver f span x0 te))
  /\ exists (fig1 : Plot.figure Q) (fig2 : Plot.figure Np.float)
            (triples : list (list (Plot.curve Np.float))),
      script probe_solver selected = inr (fig1, fig2)
      /\ Plot.hlines fig1 = [0.2]
      /\ Forall2 (fun key c =>
                    exists sol, answer probe_solver key = Some sol
                                /\ c = Plot.mk key (Ode.t sol) (total sol))
                 selected (Plot.curves fig1)
      /\ Plot.curves fig2 = concat triples
      /\ Forall2 (fun key tr =>
                    exists sol ps pp pr,
                      answer probe_solver key = Some sol
                      /\ proportions sol = inr [ps; pp; pr]
                      /\ tr = proportion_curves key sol ps pp pr)
                 selected triples
      /\ Forall aligned (Plot.curves fig1)
      /\ Forall aligned (Plot.curves fig2).
Proof.
  intros selected.
  assert (Hall : Forall known selected) by (repeat constructor; table_key).
  split; [split; [exact Hall|exact probe_solver_well_shaped]|].
  exact (script_renders probe_solver selected Hall probe_solver_well_shaped).
Defined.

Lemma for_each_same_entries (s1 s2 : solver) :
  (forall f span y0 te, same_samples (s1 f span y0 te) (s2 f span y0 te)) ->
  forall selected st1 st2,
    same_entries (results st1) (results st2) ->
    fst (for_each s1 selected st1) = fst (for_each s2 selected st2)
    /\ same_entries (results (snd (for_each s1 selected st1)))
                    (results (snd (for_each s2 selected st2))).
Proof.
  intros Hs. induction selected as [|key rest IH]; intros st1 st2 Hst; simpl.
  - split; [reflexivity|exact Hst].
  - unfold body. destruct (getitem scenarios key) as [e|config].
    + split; [reflexivity|exact Hst].
    + apply IH. simpl. intros key'.
      rewrite !lookup_insert. destruct (decide (key = key')).
      * constructor. apply Hs.
      * apply Hst.
Qed.

Lemma figure1_same_entries (res1 res2 : gmap string Ode.result) :
  same_entries res1 res2 ->
  forall selected ax1, figure1 res1 selected ax1 = figure1 res2 selected ax1.
Proof.
  intros Hres. induction selected as [|key rest IH]; intros ax1; simpl; [reflexivity|].
  unfold result_of.
  destruct (Hres key) as [sol1 sol2 [Ht Hy]|]; simpl; [|reflexivity].
  unfold total. rewrite Ht, Hy.
  destruct (Plot.plot ax1 (Ode.t sol2) (Np.sum_axis0 (Ode.y sol2)) key);
    simpl; [reflexivity|apply IH].
Qed.

Lemma figure2_same_entries (res1 res2 : gmap string Ode.result) :
  same_entries res1 res2 ->
  forall selected ax2, figure2 res1 selected ax2 = figure2 res2 selected ax2.
Proof.
  intros Hres. induction selected as [|key rest IH]; intros ax2; simpl; [reflexivity|].
  unfold result_of.
  destruct (Hres key) as [sol1 sol2 [Ht Hy]|]; simpl; [|reflexivity].
  unfold proportions. rewrite Ht, Hy.
  repeat match goal with
         | |- rbind ?m _ = rbind ?m _ =>
             destruct m; simpl; [reflexivity|]
         end.
  apply IH.
Qed.

(** X16.  The figures never show whether an integration succeeded: two
    integrators whose results have the same time points and states,
    whatever their [status] and [success], give the same outcome of the
    script -- the same figures, or the same exception. *)
Theorem script_ignores_success :
  forall (solve_ivp solve_ivp' : solver) (selected : list string),
    (forall f span y0 te,
        same_samples (solve_ivp f span y0 te) (solve_ivp' f span y0 te)) ->
    script solve_ivp selected = script solve_ivp' selected.
Proof.
  intros s1 s2 selected Hs.
  destruct (for_each_same_entries s1 s2 Hs selected (mkState ∅ []) (mkState ∅ []))
    as [Hfst Hres].
  { intros key. simpl. rewrite !lookup_empty. constructor. }
  unfold script, run.
  destruct (for_each s1 selected (mkState ∅ [])) as [[e1|[]] st1];
    destruct (for_each s2 selected (mkState ∅ [])) as [[e2|[]] st2];
    simpl in Hfst, Hres; try discriminate Hfst.
  - congruence.
  - rewrite (figure1_same_entries _ _ Hres), (figure2_same_entries _ _ Hres).
    reflexivity.
Qed.

Lemma script_ignores_success_witness :
  let optimist : solver :=
    fun f span y0 te =>
      let sol := probe_solver f span y0 te in
      Ode.mk (Ode.t sol) (Ode.y sol) 0 true in
  let selected := ["Scenario 1: Sensitive + High therapy"]%string in
  (Ode.success (integrate probe_solver (Config.mk [0.9; 0.5; 0.1] 0.8 1.0)) = false
   /\ Ode.success (integrate optimist (Config.mk [0.9; 0.5; 0.1] 0.8 1.0)) = true
   /\ forall f span y0 te,
        same_samples (probe_solver f span y0 te) (optimist f span y0 te))
  /\ script probe_solver selected = script optimist selected.
Proof.
  intros optimist selected.
  assert (Hs : forall f span y0 te,
             same_samples (probe_solver f span y0 te) (optimist f span y0 te))
    by (intros; split; reflexivity).
  split; [split; [vm_compute; reflexivity|split; [reflexivity|exact Hs]]|].
  exact (script_ignores_success probe_solver optimist selected Hs).
Defined.

(** ** A failed integration *)

(** C8, as the code has it.  When the integrator reports a failed
    integration for one selected scenario (all selected names being in
    the table), the loop still runs to the end: every selected name is
    integrated, in order; the mapping holds, under the failing key, the
    integrator's own result with [success = false], and under every
    selected key the integrator's result for that key.  Nothing after
    the loop reads [success] or [status]: what the script produces is
    what it produces for an integrator that returns the same samples and
    reports something else, so the failure is not reported. *)
Theorem run_failed_result_unreported :
  forall (solve_ivp solve_ivp' : solver) (selected : list string)
         (key : string) (config : Config.t),
    Forall known selected ->
    key ∈ selected ->
    getitem scenarios key = inr config ->
    Ode.success (integrate solve_ivp config) = false ->
    (forall f span y0 te,
        same_samples (solve_ivp f span y0 te) (solve_ivp' f span y0 te)) ->
    exists res : gmap string Ode.result,
      run solve_ivp selected = (inr tt, mkState res selected)
      /\ delivered (run solve_ivp selected) = Some res
      /\ res !! key = Some (integrate solve_ivp config)
      /\ Ode.success <$> res !! key = Some false
      /\ Forall (fun other =>
                   is_Some (answer solve_ivp other)
                   /\ res !! other = answer solve_ivp other) selected
      /\ script solve_ivp selected = script solve_ivp' selected.
Proof.
  intros s1 s2 selected key config Hall Hin Hc Hfail Hs.
  destruct (run_known_lookup s1 selected Hall) as (res & Hrun & Hres).
  exists res.
  assert (Hkey : res !! key = Some (integrate s1 config)).
  { rewrite Hres, decide_True by exact Hin. unfold answer. rewrite Hc. reflexivity. }
  split; [exact Hrun|]. split; [unfold delivered; rewrite Hrun; reflexivity|].
  split; [exact Hkey|]. split; [rewrite Hkey; simpl; rewrite Hfail; reflexivity|].
  split.
  - apply Forall_forall. intros other Hother. split.
    + apply known_answer. eapply Forall_forall in Hall; eauto.
    + rewrite Hres, decide_True by exact Hother. reflexivity.
  - destruct (for_each_same_entries s1 s2 Hs selected (mkState ∅ []) (mkState ∅ []))
      as [Hfst Hsame].
    { intros k. simpl. rewrite !lookup_empty. constructor. }
    unfold script, run.
    destruct (for_each s1 selected (mkState ∅ [])) as [[e1|[]] st1];
      destruct (for_each s2 selected (mkState ∅ [])) as [[e2|[]] st2];
      simpl in Hfst, Hsame; try discriminate Hfst.
    + congruence.
    + rewrite (figure1_same_entries _ _ Hsame), (figure2_same_entries _ _ Hsame).
      reflexivity.
Qed.

Lemma reporting_success_same_samples (solve_ivp : solver) f span y0 te :
  same_samples (solve_ivp f span y0 te) (reporting_success solve_ivp f span y0 te).
Proof. split; reflexivity. Qed.

Lemma run_failed_result_unreported_witness :
  let selected :=
    ["Scenario 1: Sensitive + High therapy";
     "Scenario 5: Experimental control"]%string in
  let key := "Scenario 1: Sensitive + High therapy"%string in
  let config := Config.mk [0.9; 0.5; 0.1] 0.8 1.0 in
  (Forall known selected
   /\ key ∈ selected
   /\ getitem scenarios key = inr config
   /\ Ode.success (integrate probe_solver config) = false)
  /\ exists res : gmap string Ode.result,
      run probe_solver selected = (inr tt, mkState res selected)
      /\ delivered (run probe_solver selected) = Some res
      /\ res !! key = Some (integrate probe_solver config)
      /\ Ode.success <$> res !! key = Some false
      /\ Forall (fun other =>
                   is_Some (answer probe_solver other)
                   /\ res !! other = answer probe_solver other) selected
      /\ script probe_solver selected
         = script (reporting_success probe_solver) selected.
Proof.
  intros selected key config.
  assert (Hall : Forall known selected) by (repeat constructor; table_key).
  assert (Hin : key ∈ selected) by left.
  assert (Hc : getitem scenarios key = inr config) by reflexivity.
  assert (Hfail : Ode.success (integrate probe_solver config) = false)
    by (vm_compute; reflexivity).
  split; [repeat split; assumption|].
  exact (run_failed_result_unreported probe_solver (reporting_success probe_solver)
           selected key config Hall Hin Hc Hfail
           (reporting_success_same_samples probe_solver)).
Defined.

(** C8, as the specification words it, fails in its last clause: for
    Scenario 1 the script produces the same, whether the integration is
    reported as failed or, with the same samples, as a success. *)
Lemma failure_reported_counterexample :
  Ode.success (integrate probe_solver (Config.mk [0.9; 0.5; 0.1] 0.8 1.0)) = false
  /\ Ode.success (integrate (reporting_success probe_solver)
                            (Config.mk [0.9; 0.5; 0.1] 0.8 1.0)) = true
  /\ script probe_solver ["Scenario 1: Sensitive + High therapy"]%string
     = script (reporting_success probe_solver)
              ["Scenario 1: Sensitive + High therapy"]%string
  /\ ~ failure_reported.
Proof.
  assert (Hfail : Ode.success (integrate probe_solver
                                 (Config.mk [0.9; 0.5; 0.1] 0.8 1.0)) = false)
    by (vm_compute; reflexivity).
  assert (Hsame : script probe_solver ["Scenario 1: Sensitive + High therapy"]%string
                  = script (reporting_success probe_solver)
                           ["Scenario 1: Sensitive + High therapy"]%string)
    by (vm_compute; reflexivity).
  split; [exact Hfail|]. split; [reflexivity|]. split; [exact Hsame|].
  intros Hrep.
  apply (Hrep probe_solver (reporting_success probe_solver)
           ["Scenario 1: Sensitive + High therapy"]%string
           "Scenario 1: Sensitive + High therapy"%string
           (Config.mk [0.9; 0.5; 0.1] 0.8 1.0)).
  - repeat constructor; table_key.
  - left.
  - reflexivity.
  - apply reporting_success_same_samples.
  - exact Hfail.
  - reflexivity.
  - exact Hsame.
Qed.
